(** * Text-to-Speech app: the event handlers of [App.tsx]

    A shallow embedding of the React component [App] of
    [src/project/src/App.tsx].  The component is UI glue over two platform
    collaborators, [window.speechSynthesis] and the anchor/Blob download
    mechanism.  Both are opaque to the component, so the embedding keeps them
    opaque as well:

    - what a handler reads from the platform during one run
      ([speechSynthesis.speaking], [speechSynthesis.getVoices()], ...) is an
      environment [Env] passed to the handler;
    - what a handler asks of the platform ([cancel()], [speak(u)], [a.click()],
      ...) is appended, in program order, to a trace of [Effect]s.

    The React state ([useState] cells) and the [useRef] cell are threaded
    through the handlers by a small reader/state/writer monad. *)

From Stdlib Require Import String List Bool Arith QArith Lia.
Import ListNotations.

Local Open Scope string_scope.
Local Open Scope list_scope.

(** ** Data model *)

(** [interface Voice] (lines 4-8). *)
Record Voice : Type := mkVoice {
  name : string;
  lang : string;
  voiceURI : string
}.

(** The seven [useState] cells of the component (lines 11-17).  JavaScript
    numbers are kept as exact rationals: the component never computes with
    [rate] or [pitch], it only stores them and hands them on. *)
Record State : Type := mkState {
  text : string;
  voices : list Voice;
  selectedVoice : string;
  rate : Q;
  pitch : Q;
  isPlaying : bool;
  showSettings : bool
}.

Definition setText (v : string) (s : State) : State :=
  mkState v (voices s) (selectedVoice s) (rate s) (pitch s) (isPlaying s) (showSettings s).

Definition setVoices (v : list Voice) (s : State) : State :=
  mkState (text s) v (selectedVoice s) (rate s) (pitch s) (isPlaying s) (showSettings s).

Definition setSelectedVoice (v : string) (s : State) : State :=
  mkState (text s) (voices s) v (rate s) (pitch s) (isPlaying s) (showSettings s).

Definition setRate (v : Q) (s : State) : State :=
  mkState (text s) (voices s) (selectedVoice s) v (pitch s) (isPlaying s) (showSettings s).

Definition setPitch (v : Q) (s : State) : State :=
  mkState (text s) (voices s) (selectedVoice s) (rate s) v (isPlaying s) (showSettings s).

Definition setIsPlaying (v : bool) (s : State) : State :=
  mkState (text s) (voices s) (selectedVoice s) (rate s) (pitch s) v (showSettings s).

Definition setShowSettings (v : bool) (s : State) : State :=
  mkState (text s) (voices s) (selectedVoice s) (rate s) (pitch s) (isPlaying s) v.

(** The state of the first render: the arguments of the [useState] calls. *)
Definition initialState : State :=
  mkState EmptyString [] EmptyString 1%Q 1%Q false false.

(** A [SpeechSynthesisUtterance] as [handleSpeak] leaves it: the four data
    fields and the three lifecycle callbacks.  A callback of the component is
    a closure [() => setIsPlaying(b)], that is, a state update. *)
Module Utterance.
Record t : Type := make {
  text : string;
  voice : option Voice;
  rate : Q;
  pitch : Q;
  onstart : State -> State;
  onend : State -> State;
  onerror : State -> State
}.
End Utterance.

(** [new Blob(parts, { type })]. *)
Record Blob : Type := mkBlob {
  parts : list string;
  type : string
}.

(** The two attributes [handleDownload] sets on the anchor element. *)
Record Anchor : Type := mkAnchor {
  href : string;
  download : string
}.

(** What the component memory holds between events: the React state and
    [utteranceRef.current]. *)
Record App : Type := mkApp {
  state : State;
  utteranceRef : option Utterance.t
}.

Definition initialApp : App := mkApp initialState None.

(** What one handler run reads from the platform. *)
Record Env : Type := mkEnv {
  speaking : bool;                    (* speechSynthesis.speaking *)
  getVoices : list Voice;             (* speechSynthesis.getVoices() *)
  onvoiceschanged_defined : bool;     (* speechSynthesis.onvoiceschanged !== undefined *)
  createObjectURL : Blob -> string    (* window.URL.createObjectURL(blob) *)
}.

(** What a handler asks of the platform, in program order. *)
Inductive Effect : Type :=
| SynthCancel                               (* speechSynthesis.cancel() *)
| SynthSpeak (u : Utterance.t)              (* speechSynthesis.speak(u) *)
| SynthPause                                (* speechSynthesis.pause() *)
| SynthResume                               (* speechSynthesis.resume() *)
| AssignOnVoicesChanged                     (* speechSynthesis.onvoiceschanged = loadVoices *)
| ObjectURLCreated (b : Blob) (url : string) (* url = createObjectURL(b) *)
| AnchorClick (a : Anchor)                  (* a.click() *)
| ObjectURLRevoked (url : string).          (* revokeObjectURL(url) *)

(** ** The handler monad *)

Record Result (A : Type) : Type := mkResult {
  value : A;
  app : App;
  effects : list Effect
}.
Arguments mkResult {A} _ _ _.
Arguments value {A} _.
Arguments app {A} _.
Arguments effects {A} _.

Definition Handler (A : Type) : Type := Env -> App -> Result A.

Definition ret {A : Type} (a : A) : Handler A :=
  fun _ ap => mkResult a ap [].

Definition bind {A B : Type} (m : Handler A) (k : A -> Handler B) : Handler B :=
  fun env ap =>
    let r1 := m env ap in
    let r2 := k (value r1) env (app r1) in
    mkResult (value r2) (app r2) (effects r1 ++ effects r2).

Declare Scope handler_scope.
Delimit Scope handler_scope with handler.
Notation "x <- m ;; k" := (bind m (fun x => k))
  (at level 61, m at next level, right associativity) : handler_scope.
Notation "m ;; k" := (bind m (fun _ => k))
  (at level 61, right associativity) : handler_scope.
Local Open Scope handler_scope.

Definition ask {A : Type} (f : Env -> A) : Handler A :=
  fun env ap => mkResult (f env) ap [].

Definition read {A : Type} (f : State -> A) : Handler A :=
  fun _ ap => mkResult (f (state ap)) ap [].

Definition update (f : State -> State) : Handler unit :=
  fun _ ap => mkResult tt (mkApp (f (state ap)) (utteranceRef ap)) [].

Definition setRef (u : option Utterance.t) : Handler unit :=
  fun _ ap => mkResult tt (mkApp (state ap) u) [].

Definition emit (e : Effect) : Handler unit :=
  fun _ ap => mkResult tt ap [e].

Definition when (b : bool) (m : Handler unit) : Handler unit :=
  if b then m else ret tt.

(** JavaScript truthiness of a string: only the empty string is falsy. *)
Definition truthy (s : string) : bool :=
  match s with
  | EmptyString => false
  | String _ _ => true
  end.

(** ** The handlers *)

(** [loadVoices] (lines 22-28).  Under the guard [length > 0] the element
    [availableVoices[0]] is the head of the list. *)
Definition loadVoices : Handler unit :=
  availableVoices <- ask getVoices ;;
  update (setVoices availableVoices) ;;
  when (0 <? length availableVoices)%nat
    match availableVoices with
    | v0 :: _ => update (setSelectedVoice (voiceURI v0))
    | [] => ret tt
    end.

(** The body of the [useEffect] (lines 21-34), run once after the first render. *)
Definition mountEffect : Handler unit :=
  loadVoices ;;
  defined <- ask onvoiceschanged_defined ;;
  when defined (emit AssignOnVoicesChanged).

(** [handleSpeak] (lines 36-53). *)
Definition handleSpeak : Handler unit :=
  busy <- ask speaking ;;
  when busy (emit SynthCancel) ;;
  txt <- read text ;;
  when (truthy txt)
    (vs <- read voices ;;
     sel <- read selectedVoice ;;
     r <- read rate ;;
     p <- read pitch ;;
     let u := Utterance.make txt
                (find (fun v => String.eqb (voiceURI v) sel) vs)
                r p
                (setIsPlaying true) (setIsPlaying false) (setIsPlaying false) in
     setRef (Some u) ;;
     emit (SynthSpeak u)).

(** [handlePause] (lines 55-64). *)
Definition handlePause : Handler unit :=
  busy <- ask speaking ;;
  when busy
    (playing <- read isPlaying ;;
     (if playing then emit SynthPause else emit SynthResume) ;;
     update (setIsPlaying (negb playing))).

(** [handleStop] (lines 66-69). *)
Definition handleStop : Handler unit :=
  emit SynthCancel ;;
  update (setIsPlaying false).

(** [handleDownload] (lines 71-79). *)
Definition handleDownload : Handler unit :=
  txt <- read text ;;
  let blob := mkBlob [txt] "text/plain" in
  url <- ask (fun env => createObjectURL env blob) ;;
  emit (ObjectURLCreated blob url) ;;
  let a := mkAnchor url "speech-text.txt" in
  emit (AnchorClick a) ;;
  emit (ObjectURLRevoked url).

(** ** The rendered controls *)

(** The four buttons of the main row (lines 109-141). *)
Inductive Button : Type :=
| PlayButton
| PauseButton
| StopButton
| DownloadButton.

(** The [disabled] attribute of each button.  The Play and Download
    attributes are computed from React state, so they are always those of the
    current state.  The Pause and Stop attributes read
    [speechSynthesis.speaking] while rendering; [speakingAtRender] is the
    value the platform reported then, which the platform may have changed
    since without causing a new render. *)
Definition disabled (speakingAtRender : bool) (s : State) (b : Button) : bool :=
  match b with
  | PlayButton => negb (truthy (text s)) || isPlaying s
  | PauseButton => negb speakingAtRender
  | StopButton => negb speakingAtRender
  | DownloadButton => negb (truthy (text s))
  end.

(** The label of the Pause/Resume toggle (line 123). *)
Definition pauseLabel (s : State) : string :=
  if isPlaying s then "Pause" else "Resume".

Definition onClick (b : Button) : Handler unit :=
  match b with
  | PlayButton => handleSpeak
  | PauseButton => handlePause
  | StopButton => handleStop
  | DownloadButton => handleDownload
  end.

(** A click on a button: the browser delivers no click to a disabled button. *)
Definition click (b : Button) (speakingAtRender : bool) : Handler unit :=
  s <- read (fun s => s) ;;
  if disabled speakingAtRender s b then ret tt else onClick b.

(** The range inputs of the settings panel (lines 171-194): both carry
    [min="0.5" max="2" step="0.1"]. *)
Definition sliderMin : Q := 1 # 2.
Definition sliderMax : Q := 2.
Definition sliderStep : Q := 1 # 10.

(** The values a range input with these bounds can hold. *)
Definition sliderOffers (v : Q) : bool :=
  Qle_bool sliderMin v && Qle_bool v sliderMax.

(** ** Events *)

(** Everything that makes the component run code.  A slider or text event
    carries the value the handler extracts from it ([e.target.value], through
    [parseFloat] for the sliders).  A lifecycle event names the utterance
    whose callback the platform invokes. *)
Inductive Event : Type :=
| Mount
| VoicesChanged
| TextInput (v : string)
| VoiceChosen (v : string)
| RateSlider (v : Q)
| PitchSlider (v : Q)
| SettingsClick
| ButtonClick (b : Button) (speakingAtRender : bool)
| Started (u : Utterance.t)
| Ended (u : Utterance.t)
| Errored (u : Utterance.t).

Definition dispatch (ev : Event) : Handler unit :=
  match ev with
  | Mount => mountEffect
  | VoicesChanged => loadVoices
  | TextInput v => update (setText v)
  | VoiceChosen v => update (setSelectedVoice v)
  | RateSlider v => update (setRate v)
  | PitchSlider v => update (setPitch v)
  | SettingsClick => shown <- read showSettings ;; update (setShowSettings (negb shown))
  | ButtonClick b speakingAtRender => click b speakingAtRender
  | Started u => update (Utterance.onstart u)
  | Ended u => update (Utterance.onend u)
  | Errored u => update (Utterance.onerror u)
  end.

(** A session: events in order, each with what the platform shows during it. *)
Fixpoint run (evs : list (Env * Event)) (ap : App) : Result unit :=
  match evs with
  | [] => mkResult tt ap []
  | (env, ev) :: rest =>
      let r1 := dispatch ev env ap in
      let r2 := run rest (app r1) in
      mkResult tt (app r2) (effects r1 ++ effects r2)
  end.

(** ** The collaborators, as far as the properties below need them *)

(** The platform's utterance queue: [speak] appends, [cancel] removes every
    utterance, spoken or pending; the other requests leave the queue alone. *)
Fixpoint queueAfter (es : list Effect) (q : list Utterance.t) : list Utterance.t :=
  match es with
  | [] => q
  | SynthCancel :: rest => queueAfter rest []
  | SynthSpeak u :: rest => queueAfter rest (q ++ [u])
  | _ :: rest => queueAfter rest q
  end.

(** A file handed to the user by the download mechanism. *)
Record File : Type := mkFile {
  filename : string;
  mime : string;
  content : string
}.

Fixpoint lookupURL (url : string) (store : list (string * Blob)) : option Blob :=
  match store with
  | [] => None
  | (u, b) :: rest => if String.eqb u url then Some b else lookupURL url rest
  end.

Definition revokeURL (url : string) (store : list (string * Blob)) : list (string * Blob) :=
  filter (fun ub => negb (String.eqb (fst ub) url)) store.

(** The files a trace saves: clicking an anchor whose [href] is a live object
    URL saves the blob behind it under the anchor's [download] name. *)
Fixpoint savedFiles (es : list Effect) (store : list (string * Blob)) : list File :=
  match es with
  | [] => []
  | ObjectURLCreated b url :: rest => savedFiles rest ((url, b) :: store)
  | ObjectURLRevoked url :: rest => savedFiles rest (revokeURL url store)
  | AnchorClick a :: rest =>
      match lookupURL (href a) store with
      | Some b =>
          mkFile (download a) (type b) (String.concat EmptyString (parts b))
            :: savedFiles rest store
      | None => savedFiles rest store
      end
  | _ :: rest => savedFiles rest store
  end.

(** Clamping to a closed interval, as the specification words it. *)
Definition clamp (lo hi v : Q) : Q :=
  if Qle_bool lo v then (if Qle_bool v hi then v else hi) else lo.

(** The utterance [handleSpeak] builds from a state. *)
Definition utteranceOf (s : State) : Utterance.t :=
  Utterance.make (text s)
    (find (fun v => String.eqb (voiceURI v) (selectedVoice s)) (voices s))
    (rate s) (pitch s)
    (setIsPlaying true) (setIsPlaying false) (setIsPlaying false).

(** The utterances a trace hands to the platform. *)
Fixpoint spokenIn (es : list Effect) : list Utterance.t :=
  match es with
  | [] => []
  | SynthSpeak u :: rest => u :: spokenIn rest
  | _ :: rest => spokenIn rest
  end.

(** The value the rate slider was last set to in a session, [r0] if it never
    was; likewise for the pitch slider. *)
Fixpoint lastRate (evs : list (Env * Event)) (r0 : Q) : Q :=
  match evs with
  | [] => r0
  | (_, RateSlider v) :: rest => lastRate rest v
  | _ :: rest => lastRate rest r0
  end.

Fixpoint lastPitch (evs : list (Env * Event)) (p0 : Q) : Q :=
  match evs with
  | [] => p0
  | (_, PitchSlider v) :: rest => lastPitch rest v
  | _ :: rest => lastPitch rest p0
  end.

(** A session the browser can produce from [ap]: a slider event carries a
    value the range input offers, and the platform invokes lifecycle callbacks
    only of utterances it was handed before ([spoken]). *)
Fixpoint feasible (evs : list (Env * Event)) (ap : App) (spoken : list Utterance.t) : Prop :=
  match evs with
  | [] => True
  | (env, ev) :: rest =>
      match ev with
      | RateSlider v | PitchSlider v => sliderOffers v = true
      | Started u | Ended u | Errored u => In u spoken
      | _ => True
      end /\
      let r := dispatch ev env ap in
      feasible rest (app r) (spoken ++ spokenIn (effects r))
  end.

(** An utterance that [handleSpeak] built from some state. *)
Definition fromPlay (u : Utterance.t) : Prop :=
  exists s, u = utteranceOf s.

(** The event a lifecycle callback belongs to names an utterance built by
    [handleSpeak]; any other event passes. *)
Definition lifecycleFromPlay (ev : Event) : Prop :=
  match ev with
  | Started u | Ended u | Errored u => fromPlay u
  | _ => True
  end.

(** ** Sample data *)

Definition voiceA : Voice := mkVoice "Alice" "en-US" "urn:voice:alice".
Definition voiceB : Voice := mkVoice "Bruno" "fr-FR" "urn:voice:bruno".
Definition voiceC : Voice := mkVoice "Chen" "zh-CN" "urn:voice:chen".

Definition envIdle : Env :=
  mkEnv false [voiceA; voiceB; voiceC] true (fun _ => "blob:1").

Definition envSpeaking : Env :=
  mkEnv true [voiceA; voiceB; voiceC] true (fun _ => "blob:1").

Definition envNoVoices : Env :=
  mkEnv false [] true (fun _ => "blob:1").

Definition stateHello : State :=
  mkState "Hello world" [voiceA; voiceB; voiceC] "urn:voice:bruno"
    (3 # 2) (7 # 10) false false.

Definition appHello : App := mkApp stateHello None.

Definition appEmpty : App :=
  mkApp (setText EmptyString stateHello) None.

(** A session that ends with the toggle rendered enabled while the platform
    is idle: speech is started, paused, then stopped.  [handleStop] sets the
    flag to the value it already has, so nothing renders again and the toggle
    keeps the [disabled] attribute of the last render. *)
Definition sessionPausedThenStopped : list (Env * Event) :=
  [ (envIdle, Mount);
    (envIdle, TextInput "Hello world");
    (envIdle, ButtonClick PlayButton false);
    (envSpeaking, Started (utteranceOf (setText "Hello world"
                    (setSelectedVoice "urn:voice:alice"
                      (setVoices [voiceA; voiceB; voiceC] initialState)))));
    (envSpeaking, ButtonClick PauseButton true);
    (envSpeaking, ButtonClick StopButton true) ].

(** A session that moves both sliders, the rate slider twice. *)
Definition sessionSliders : list (Env * Event) :=
  [ (envIdle, Mount);
    (envIdle, RateSlider (8 # 10));
    (envIdle, TextInput "Hello world");
    (envIdle, PitchSlider (1 # 2));
    (envIdle, RateSlider (17 # 10));
    (envIdle, SettingsClick) ].

(** ** Further parts of the component *)

(** One [<option>] of the voice dropdown (lines 159-163): its [value]
    attribute and the text it shows. *)
Record VoiceOption : Type := mkOption {
  optionValue : string;
  optionLabel : string
}.

(** [voices.map(voice => <option value={voice.voiceURI}>{voice.name}
    ({voice.lang})</option>)]. *)
Definition voiceOptions (s : State) : list VoiceOption :=
  map (fun voice =>
         mkOption (voiceURI voice) (name voice ++ " (" ++ lang voice ++ ")"))
      (voices s).

(** The text last typed in a session, [t0] if none was. *)
Fixpoint lastText (evs : list (Env * Event)) (t0 : string) : string :=
  match evs with
  | [] => t0
  | (_, TextInput v) :: rest => lastText rest v
  | _ :: rest => lastText rest t0
  end.

(** The last element of a list, [d] if it has none. *)
Definition lastOf {A : Type} (l : list A) (d : option A) : option A :=
  fold_left (fun _ x => Some x) l d.

(** The object URLs alive after a trace. *)
Fixpoint storeAfter (es : list Effect) (store : list (string * Blob)) : list (string * Blob) :=
  match es with
  | [] => store
  | ObjectURLCreated b url :: rest => storeAfter rest ((url, b) :: store)
  | ObjectURLRevoked url :: rest => storeAfter rest (revokeURL url store)
  | _ :: rest => storeAfter rest store
  end.

(** A session of [n] clicks on the settings button. *)
Definition settingsClicks (env : Env) (n : nat) : list (Env * Event) :=
  repeat (env, SettingsClick) n.

(** ** Proof support *)

Ltac unfold_handler :=
  unfold click, onClick, mountEffect, loadVoices, handleSpeak, handlePause,
    handleStop, handleDownload, bind, ask, read, update, setRef, emit, when, ret;
  cbn.

Lemma truthy_false_iff (s : string) : truthy s = false <-> s = EmptyString.
Proof.
  destruct s; simpl; split; intro H; try reflexivity; discriminate H.
Qed.

Lemma truthy_true_iff (s : string) : truthy s = true <-> s <> EmptyString.
Proof.
  destruct s; simpl; split; intro H.
  - discriminate H.
  - exfalso; apply H; reflexivity.
  - intro E; discriminate E.
  - reflexivity.
Qed.

(** *** The handlers in closed form *)

Lemma handleSpeak_unfold (env : Env) (ap : App) :
  handleSpeak env ap =
  mkResult tt
    (if truthy (text (state ap))
     then mkApp (state ap) (Some (utteranceOf (state ap)))
     else ap)
    ((if speaking env then [SynthCancel] else []) ++
     (if truthy (text (state ap)) then [SynthSpeak (utteranceOf (state ap))] else [])).
Proof.
  unfold_handler. unfold utteranceOf.
  destruct (speaking env); cbn;
    destruct (truthy (text (state ap))); reflexivity.
Qed.

Lemma handlePause_unfold (env : Env) (ap : App) :
  handlePause env ap =
  if speaking env
  then mkResult tt
         (mkApp (setIsPlaying (negb (isPlaying (state ap))) (state ap)) (utteranceRef ap))
         [if isPlaying (state ap) then SynthPause else SynthResume]
  else mkResult tt ap [].
Proof.
  unfold_handler.
  destruct (speaking env); cbn; [destruct (isPlaying (state ap))|]; reflexivity.
Qed.


Lemma handleDownload_unfold (env : Env) (ap : App) :
  handleDownload env ap =
  let blob := mkBlob [text (state ap)] "text/plain" in
  let url := createObjectURL env blob in
  mkResult tt ap
    [ObjectURLCreated blob url; AnchorClick (mkAnchor url "speech-text.txt");
     ObjectURLRevoked url].
Proof. reflexivity. Qed.

Lemma loadVoices_unfold (env : Env) (ap : App) :
  loadVoices env ap =
  mkResult tt
    (mkApp
       match getVoices env with
       | [] => setVoices [] (state ap)
       | v0 :: _ => setSelectedVoice (voiceURI v0) (setVoices (getVoices env) (state ap))
       end
       (utteranceRef ap))
    [].
Proof.
  unfold_handler. destruct (getVoices env); reflexivity.
Qed.

Lemma mountEffect_app (env : Env) (ap : App) :
  app (mountEffect env ap) = app (loadVoices env ap).
Proof.
  unfold mountEffect, bind, ask, when. cbn.
  destruct (onvoiceschanged_defined env); reflexivity.
Qed.

Lemma utteranceOf_callbacks (s : State) :
  Utterance.onstart (utteranceOf s) = setIsPlaying true /\
  Utterance.onend (utteranceOf s) = setIsPlaying false /\
  Utterance.onerror (utteranceOf s) = setIsPlaying false.
Proof. repeat split. Qed.

(** Whatever [handleSpeak] submits is the utterance built from the state. *)
Lemma handleSpeak_submits (env : Env) (ap : App) (u : Utterance.t) :
  In (SynthSpeak u) (effects (handleSpeak env ap)) ->
  u = utteranceOf (state ap) /\ truthy (text (state ap)) = true.
Proof.
  rewrite handleSpeak_unfold. cbn.
  destruct (speaking env), (truthy (text (state ap))); cbn; intro H;
    repeat (destruct H as [H | H]; try discriminate H);
    try contradiction;
    injection H as <-; split; reflexivity.
Qed.

(** ** Play *)

(** C1.  In every state in which the platform reports an utterance in
    progress, [handleSpeak] asks the platform to cancel before it submits the
    new utterance: the trace is the cancel, followed by the submission when
    there is text to speak.  Whatever the platform's queue held before, after
    the handler it holds at most one utterance, the new one. *)
Theorem handleSpeak_cancels_prior (env : Env) (ap : App) (q : list Utterance.t) :
  speaking env = true ->
  let es := effects (handleSpeak env ap) in
  es = SynthCancel ::
       (if truthy (text (state ap)) then [SynthSpeak (utteranceOf (state ap))] else []) /\
  queueAfter es q =
       (if truthy (text (state ap)) then [utteranceOf (state ap)] else []) /\
  (length (queueAfter es q) <= 1)%nat /\
  (forall u, In (SynthSpeak u) es ->
     exists rest, es = SynthCancel :: rest /\ In (SynthSpeak u) rest).
Proof.
  intros Hbusy es. subst es. rewrite handleSpeak_unfold. cbn.
  rewrite Hbusy. cbn.
  destruct (truthy (text (state ap))); cbn; repeat split; auto.
  - intros u [H | [H | []]]; [discriminate H|].
    eexists; split; [reflexivity | left; exact H].
  - intros u [H | []]; discriminate H.
Qed.

Lemma handleSpeak_cancels_prior_witness :
  effects (handleSpeak envSpeaking appHello) =
    [SynthCancel; SynthSpeak (utteranceOf stateHello)] /\
  queueAfter (effects (handleSpeak envSpeaking appHello))
    [utteranceOf initialState; utteranceOf stateHello] = [utteranceOf stateHello].
Proof.
  destruct (handleSpeak_cancels_prior envSpeaking appHello
              [utteranceOf initialState; utteranceOf stateHello] eq_refl)
    as (Hes & Hq & _).
  split; [exact Hes | exact Hq].
Defined.

(** On a platform that reports speaking whenever its queue is not empty,
    [handleSpeak] never leaves two utterances queued. *)
Lemma handleSpeak_queue_bound (env : Env) (ap : App) (q : list Utterance.t) :
  (q <> [] -> speaking env = true) ->
  (length (queueAfter (effects (handleSpeak env ap)) q) <= 1)%nat.
Proof.
  intro Hreport. rewrite handleSpeak_unfold. cbn [effects].
  destruct (speaking env) eqn:Hbusy.
  - destruct (truthy (text (state ap))); cbn; lia.
  - destruct q as [| u q'].
    + destruct (truthy (text (state ap))); cbn; lia.
    + assert (Habs : false = true) by (apply Hreport; discriminate).
      discriminate Habs.
Qed.

(** C2.  For every utterance [handleSpeak] submits: its start callback sets
    the playback flag, its end callback clears it, its error callback is the
    same state update as the end callback (each touches the flag only, and a
    callback is a state update that asks nothing of the platform), and the
    submission itself leaves the React state as it was, so the flag is not
    set at submission. *)
Theorem utterance_callbacks (env : Env) (ap : App) (u : Utterance.t) :
  In (SynthSpeak u) (effects (handleSpeak env ap)) ->
  (forall s, Utterance.onstart u s = setIsPlaying true s /\
             isPlaying (Utterance.onstart u s) = true) /\
  (forall s, Utterance.onend u s = setIsPlaying false s /\
             isPlaying (Utterance.onend u s) = false) /\
  (forall s, Utterance.onerror u s = Utterance.onend u s /\
             isPlaying (Utterance.onerror u s) = false) /\
  state (app (handleSpeak env ap)) = state ap /\
  isPlaying (state (app (handleSpeak env ap))) = isPlaying (state ap).
Proof.
  intro Hin. apply handleSpeak_submits in Hin. destruct Hin as [-> Htxt].
  assert (Hst : state (app (handleSpeak env ap)) = state ap).
  { rewrite handleSpeak_unfold. cbn. rewrite Htxt. reflexivity. }
  repeat split; try reflexivity; try exact Hst.
  rewrite Hst. reflexivity.
Qed.

Lemma utterance_callbacks_witness :
  isPlaying (Utterance.onstart (utteranceOf stateHello) stateHello) = true /\
  isPlaying (Utterance.onerror (utteranceOf stateHello)
               (setIsPlaying true stateHello)) = false /\
  isPlaying (state (app (handleSpeak envIdle appHello))) = false.
Proof.
  assert (Hin : In (SynthSpeak (utteranceOf stateHello))
                  (effects (handleSpeak envIdle appHello))).
  { simpl. left. reflexivity. }
  destruct (utterance_callbacks envIdle appHello (utteranceOf stateHello) Hin)
    as (Hs & _ & He & _ & Hp).
  split; [exact (proj2 (Hs stateHello))|].
  split; [exact (proj2 (He (setIsPlaying true stateHello)))|].
  exact Hp.
Defined.

(** C5.  With an empty text buffer the Play button is disabled, so a click on
    it changes nothing and asks nothing of the platform; and [handleSpeak]
    itself, were it run, builds no utterance ([utteranceRef] and the React
    state stay as they are) and submits none. *)
Theorem play_without_text (k : bool) (env : Env) (ap : App) :
  text (state ap) = EmptyString ->
  disabled k (state ap) PlayButton = true /\
  click PlayButton k env ap = mkResult tt ap [] /\
  app (handleSpeak env ap) = ap /\
  (forall u, ~ In (SynthSpeak u) (effects (handleSpeak env ap))).
Proof.
  intro Hempty.
  assert (Hfalsy : truthy (text (state ap)) = false)
    by (apply truthy_false_iff; exact Hempty).
  assert (Hdis : disabled k (state ap) PlayButton = true)
    by (cbn; rewrite Hfalsy; reflexivity).
  split; [exact Hdis|].
  split.
  - unfold click, bind, read. cbn - [disabled]. rewrite Hdis. reflexivity.
  - split.
    + rewrite handleSpeak_unfold. cbn. rewrite Hfalsy. reflexivity.
    + intros u Hin. apply handleSpeak_submits in Hin.
      destruct Hin as [_ Ht]. rewrite Hfalsy in Ht. discriminate Ht.
Qed.

Lemma play_without_text_witness :
  disabled true (state appEmpty) PlayButton = true /\
  click PlayButton true envSpeaking appEmpty = mkResult tt appEmpty [] /\
  app (handleSpeak envSpeaking appEmpty) = appEmpty.
Proof.
  destruct (play_without_text true envSpeaking appEmpty eq_refl)
    as (Hd & Hc & Ha & _).
  split; [exact Hd|]. split; [exact Hc | exact Ha].
Defined.

(** With an empty text buffer [handleSpeak] still cancels what the platform
    is speaking; only the disabled button keeps a click from doing so. *)
Lemma handleSpeak_without_text_cancels (env : Env) (ap : App) :
  text (state ap) = EmptyString ->
  effects (handleSpeak env ap) = if speaking env then [SynthCancel] else [].
Proof.
  intro Hempty. rewrite handleSpeak_unfold. cbn.
  apply truthy_false_iff in Hempty. rewrite Hempty.
  destruct (speaking env); reflexivity.
Qed.

(** C10.  While the playback flag is set the Play button is disabled, and a
    click on it reaches no handler; the button is enabled exactly when the
    flag is clear and the text buffer is not empty. *)
Theorem play_button_gate (k : bool) (env : Env) (ap : App) :
  (isPlaying (state ap) = true ->
     disabled k (state ap) PlayButton = true /\
     click PlayButton k env ap = mkResult tt ap []) /\
  (disabled k (state ap) PlayButton = false <->
     isPlaying (state ap) = false /\ text (state ap) <> EmptyString).
Proof.
  split.
  - intro Hp.
    assert (Hdis : disabled k (state ap) PlayButton = true)
      by (cbn; rewrite Hp; apply orb_true_r).
    split; [exact Hdis|].
    unfold click, bind, read. cbn - [disabled]. rewrite Hdis. reflexivity.
  - cbn. rewrite orb_false_iff, negb_false_iff, truthy_true_iff. tauto.
Qed.

Lemma play_button_gate_witness :
  disabled false (setIsPlaying true stateHello) PlayButton = true /\
  click PlayButton false envSpeaking (mkApp (setIsPlaying true stateHello) None) =
    mkResult tt (mkApp (setIsPlaying true stateHello) None) [] /\
  disabled false stateHello PlayButton = false.
Proof.
  pose proof (play_button_gate false envSpeaking
                (mkApp (setIsPlaying true stateHello) None)) as [Hon _].
  pose proof (play_button_gate false envSpeaking appHello) as [_ Hiff].
  destruct (Hon eq_refl) as [Hd Hc].
  split; [exact Hd|]. split; [exact Hc|].
  apply Hiff. split; [reflexivity | discriminate].
Defined.

(** C8.  The voice of every utterance [handleSpeak] submits is resolved
    against the catalog by [voiceURI]: it is the first catalog entry whose
    [voiceURI] equals the selected voice id, and it is absent exactly when no
    catalog entry has that id. *)
Theorem play_resolves_voice (env : Env) (ap : App) (u : Utterance.t) :
  In (SynthSpeak u) (effects (handleSpeak env ap)) ->
  match Utterance.voice u with
  | Some v =>
      voiceURI v = selectedVoice (state ap) /\
      exists before after,
        voices (state ap) = before ++ v :: after /\
        forall w, In w before -> voiceURI w <> selectedVoice (state ap)
  | None =>
      forall w, In w (voices (state ap)) -> voiceURI w <> selectedVoice (state ap)
  end.
Proof.
  intro Hin. apply handleSpeak_submits in Hin. destruct Hin as [-> _].
  cbn. generalize (selectedVoice (state ap)) as sel.
  induction (voices (state ap)) as [| x xs IH]; intro sel; cbn.
  - intros w [].
  - destruct (String.eqb (voiceURI x) sel) eqn:E.
    + apply String.eqb_eq in E. split; [exact E|].
      exists [], xs. split; [reflexivity | intros w []].
    + apply String.eqb_neq in E. specialize (IH sel).
      destruct (find (fun v => String.eqb (voiceURI v) sel) xs) as [v|].
      * destruct IH as (Hv & before & after & Hxs & Hbefore).
        split; [exact Hv|].
        exists (x :: before), after. split; [cbn; rewrite Hxs; reflexivity|].
        intros w [<- | Hw]; [exact E | apply Hbefore; exact Hw].
      * intros w [<- | Hw]; [exact E | apply IH; exact Hw].
Qed.

Lemma play_resolves_voice_witness :
  voiceURI voiceB = selectedVoice (state appHello) /\
  exists before after,
    voices (state appHello) = before ++ voiceB :: after /\
    forall w, In w before -> voiceURI w <> selectedVoice (state appHello).
Proof.
  assert (Hin : In (SynthSpeak (utteranceOf stateHello))
                  (effects (handleSpeak envIdle appHello))).
  { simpl. left. reflexivity. }
  exact (play_resolves_voice envIdle appHello (utteranceOf stateHello) Hin).
Defined.

(** ** Stop *)

(** C3.  Whatever the playback flag and whatever the platform reports,
    [handleStop] asks the platform for exactly one thing, a cancel, which
    empties its queue, and leaves the playback flag clear; nothing else of the
    React state changes. *)
Theorem handleStop_forces_idle (env : Env) (ap : App) (q : list Utterance.t) :
  let r := handleStop env ap in
  effects r = [SynthCancel] /\
  queueAfter (effects r) q = [] /\
  isPlaying (state (app r)) = false /\
  state (app r) = setIsPlaying false (state ap).
Proof. repeat split. Qed.

(** ** Pause / Resume *)

(** C4, as the specification words it, fails for a click that finds the
    platform idle.  After speech was started, paused and stopped, the toggle
    is still rendered enabled (it reads "Resume"); a click on it then runs
    [handlePause], whose guard on [speechSynthesis.speaking] fails: no
    platform request is made and the flag is not flipped. *)
Lemma pause_click_on_idle_platform :
  let before := app (run sessionPausedThenStopped initialApp) in
  let r := click PauseButton true envIdle before in
  disabled true (state before) PauseButton = false /\
  pauseLabel (state before) = "Resume" /\
  r = handlePause envIdle before /\
  effects r = [] /\
  isPlaying (state (app r)) = isPlaying (state before).
Proof. vm_compute. repeat split. Qed.

(** C4, amended.  While the platform reports speaking, [handlePause] flips
    the playback flag once and makes exactly one platform request, a pause
    when the flag was set and a resume when it was clear; the choice reads the
    flag, not the platform.  While the platform does not report speaking, the
    handler changes nothing and requests nothing. *)
Theorem handlePause_toggle (env : Env) (ap : App) :
  let r := handlePause env ap in
  if speaking env
  then isPlaying (state (app r)) = negb (isPlaying (state ap)) /\
       state (app r) = setIsPlaying (negb (isPlaying (state ap))) (state ap) /\
       effects r = [if isPlaying (state ap) then SynthPause else SynthResume]
  else app r = ap /\ effects r = [].
Proof.
  cbv zeta. rewrite handlePause_unfold.
  destruct (speaking env); cbn; repeat split.
Qed.

(** ** Voice catalog *)

(** C6, as the specification words it, makes the default selection depend
    on no voice being selected.  The loader has no such test: with a voice
    selected and a non-empty list returned, it replaces the selection by the
    first entry. *)
Lemma loadVoices_replaces_selection :
  selectedVoice (state appHello) = voiceURI voiceB /\
  selectedVoice (state appHello) <> EmptyString /\
  In voiceB (getVoices envIdle) /\
  selectedVoice (state (app (loadVoices envIdle appHello))) = voiceURI voiceA /\
  voiceURI voiceA <> selectedVoice (state appHello).
Proof.
  repeat split; try discriminate.
  right; left; reflexivity.
Qed.

(** C6, amended.  On mount and on every voices-changed notification the
    loader stores exactly the list the platform returns; if the list is not
    empty it selects the first entry, whether or not a voice was selected; if
    the list is empty the selection is left as it was. *)
Theorem loadVoices_catalog (env : Env) (ap : App) :
  let onMount := state (app (dispatch Mount env ap)) in
  let onChange := state (app (dispatch VoicesChanged env ap)) in
  onMount = onChange /\
  voices onChange = getVoices env /\
  selectedVoice onChange =
    match getVoices env with
    | [] => selectedVoice (state ap)
    | first :: _ => voiceURI first
    end.
Proof.
  cbv zeta. cbn [dispatch]. rewrite mountEffect_app, loadVoices_unfold. cbn.
  destruct (getVoices env); repeat split.
Qed.

(** ** Text export *)

(** [handleDownload] saves one file, whatever the text. *)
Lemma handleDownload_saves (env : Env) (ap : App) :
  savedFiles (effects (handleDownload env ap)) [] =
    [mkFile "speech-text.txt" "text/plain" (text (state ap))] /\
  app (handleDownload env ap) = ap.
Proof.
  rewrite handleDownload_unfold. cbn. rewrite String.eqb_refl. cbn.
  split; reflexivity.
Qed.

(** C9.  With a non-empty text buffer the Download button is enabled and a
    click runs [handleDownload], which saves exactly one file, named
    [speech-text.txt], of type [text/plain], whose content is the text
    buffer, by an anchor click on an object URL (no other request is made).
    With an empty text buffer the button is disabled and a click saves
    nothing. *)
Theorem download_exports_text (k : bool) (env : Env) (ap : App) :
  (text (state ap) <> EmptyString ->
     disabled k (state ap) DownloadButton = false /\
     click DownloadButton k env ap = handleDownload env ap /\
     savedFiles (effects (handleDownload env ap)) [] =
       [mkFile "speech-text.txt" "text/plain" (text (state ap))] /\
     app (handleDownload env ap) = ap) /\
  (text (state ap) = EmptyString ->
     disabled k (state ap) DownloadButton = true /\
     click DownloadButton k env ap = mkResult tt ap [] /\
     savedFiles (effects (click DownloadButton k env ap)) [] = []).
Proof.
  split; intro Ht.
  - apply truthy_true_iff in Ht.
    assert (Hdis : disabled k (state ap) DownloadButton = false)
      by (cbn; rewrite Ht; reflexivity).
    split; [exact Hdis|]. split.
    + unfold click, bind, read. cbn - [disabled handleDownload].
      rewrite Hdis. cbn. reflexivity.
    + apply handleDownload_saves.
  - apply truthy_false_iff in Ht.
    assert (Hdis : disabled k (state ap) DownloadButton = true)
      by (cbn; rewrite Ht; reflexivity).
    assert (Hclick : click DownloadButton k env ap = mkResult tt ap []).
    { unfold click, bind, read. cbn - [disabled]. rewrite Hdis. reflexivity. }
    split; [exact Hdis|]. split; [exact Hclick|].
    rewrite Hclick. reflexivity.
Qed.

Lemma download_exports_text_witness :
  savedFiles (effects (click DownloadButton false envIdle appHello)) [] =
    [mkFile "speech-text.txt" "text/plain" "Hello world"] /\
  savedFiles (effects (click DownloadButton false envIdle appEmpty)) [] = [].
Proof.
  destruct (download_exports_text false envIdle appHello) as [Hfull _].
  destruct (download_exports_text false envIdle appEmpty) as [_ Hnone].
  assert (Hne : text (state appHello) <> EmptyString) by discriminate.
  destruct (Hfull Hne) as (_ & Hc & Hs & _).
  destruct (Hnone eq_refl) as (_ & _ & Hn).
  split; [rewrite Hc; exact Hs | exact Hn].
Defined.

(** ** Rate and pitch *)

Lemma click_unfold (b : Button) (k : bool) (env : Env) (ap : App) :
  click b k env ap =
  if disabled k (state ap) b then mkResult tt ap [] else onClick b env ap.
Proof.
  unfold click, bind, read. cbn - [disabled onClick].
  destruct (disabled k (state ap) b); [reflexivity|].
  destruct (onClick b env ap) as [[] a e]. reflexivity.
Qed.

(** No handler but the slider handlers writes [rate] or [pitch]. *)
Lemma dispatch_sliders (ev : Event) (env : Env) (ap : App) :
  lifecycleFromPlay ev ->
  rate (state (app (dispatch ev env ap))) =
    match ev with RateSlider v => v | _ => rate (state ap) end /\
  pitch (state (app (dispatch ev env ap))) =
    match ev with PitchSlider v => v | _ => pitch (state ap) end.
Proof.
  intro Hlife. destruct ev as [| | v | v | v | v | | b k | u | u | u];
    cbn [dispatch].
  - rewrite mountEffect_app, loadVoices_unfold. cbn.
    destruct (getVoices env); split; reflexivity.
  - rewrite loadVoices_unfold. cbn.
    destruct (getVoices env); split; reflexivity.
  - split; reflexivity.
  - split; reflexivity.
  - split; reflexivity.
  - split; reflexivity.
  - split; reflexivity.
  - rewrite click_unfold.
    destruct (disabled k (state ap) b); [split; reflexivity|].
    destruct b; cbn [onClick].
    + rewrite handleSpeak_unfold. cbn.
      destruct (truthy (text (state ap))); split; reflexivity.
    + rewrite handlePause_unfold.
      destruct (speaking env); split; reflexivity.
    + split; reflexivity.
    + split; reflexivity.
  - destruct Hlife as [s ->]. split; reflexivity.
  - destruct Hlife as [s ->]. split; reflexivity.
  - destruct Hlife as [s ->]. split; reflexivity.
Qed.

(** Every utterance a handler submits was built by [handleSpeak]. *)
Lemma dispatch_spoken (ev : Event) (env : Env) (ap : App) (u : Utterance.t) :
  In u (spokenIn (effects (dispatch ev env ap))) -> fromPlay u.
Proof.
  destruct ev as [| | v | v | v | v | | b k | w | w | w]; cbn [dispatch];
    try (cbn; intros []).
  - unfold mountEffect, bind, ask, when. rewrite loadVoices_unfold. cbn.
    destruct (onvoiceschanged_defined env); intros [].
  - rewrite loadVoices_unfold. intros [].
  - rewrite click_unfold.
    destruct (disabled k (state ap) b); [intros []|].
    destruct b; cbn [onClick].
    + rewrite handleSpeak_unfold. cbn.
      destruct (speaking env), (truthy (text (state ap))); cbn;
        intro H; try contradiction;
        destruct H as [<- | []]; exists (state ap); reflexivity.
    + rewrite handlePause_unfold.
      destruct (speaking env); [destruct (isPlaying (state ap))|]; intros [].
    + intros [].
    + intros [].
Qed.

Lemma feasible_lifecycle (ev : Event) (spoken : list Utterance.t) :
  Forall fromPlay spoken ->
  match ev with
  | RateSlider v | PitchSlider v => sliderOffers v = true
  | Started u | Ended u | Errored u => In u spoken
  | _ => True
  end ->
  lifecycleFromPlay ev.
Proof.
  intros Hall Hev. rewrite Forall_forall in Hall.
  destruct ev; cbn; auto.
Qed.

(** Over a feasible session the [rate] and [pitch] cells hold the values the
    sliders were last set to. *)
Lemma run_sliders (evs : list (Env * Event)) :
  forall (ap : App) (spoken : list Utterance.t),
    Forall fromPlay spoken ->
    feasible evs ap spoken ->
    rate (state (app (run evs ap))) = lastRate evs (rate (state ap)) /\
    pitch (state (app (run evs ap))) = lastPitch evs (pitch (state ap)).
Proof.
  induction evs as [| [env ev] rest IH]; intros ap spoken Hall Hfeas.
  - split; reflexivity.
  - destruct Hfeas as [Hev Hrest]. cbv zeta in Hrest.
    pose proof (feasible_lifecycle ev spoken Hall Hev) as Hlife.
    destruct (dispatch_sliders ev env ap Hlife) as [Hr Hp].
    assert (Hall' : Forall fromPlay (spoken ++ spokenIn (effects (dispatch ev env ap)))).
    { apply Forall_app. split; [exact Hall|].
      apply Forall_forall. intros u Hu. exact (dispatch_spoken ev env ap u Hu). }
    destruct (IH _ _ Hall' Hrest) as [IHr IHp].
    cbn [run app]. rewrite IHr, IHp, Hr, Hp.
    destruct ev; split; reflexivity.
Qed.

(** The values the sliders were last set to are values the sliders offer. *)
Lemma last_slider_offered (evs : list (Env * Event)) :
  forall (ap : App) (spoken : list Utterance.t) (r0 p0 : Q),
    feasible evs ap spoken ->
    sliderOffers r0 = true -> sliderOffers p0 = true ->
    sliderOffers (lastRate evs r0) = true /\
    sliderOffers (lastPitch evs p0) = true.
Proof.
  induction evs as [| [env ev] rest IH]; intros ap spoken r0 p0 Hfeas Hr0 Hp0.
  - split; assumption.
  - destruct Hfeas as [Hev Hrest]. cbv zeta in Hrest.
    destruct ev; cbn [lastRate lastPitch]; eapply IH; eauto.
Qed.

Lemma clamp_offered (v : Q) :
  sliderOffers v = true -> clamp sliderMin sliderMax v = v.
Proof.
  unfold sliderOffers, clamp. intro H.
  apply andb_true_iff in H. destruct H as [Hlo Hhi].
  rewrite Hlo, Hhi. reflexivity.
Qed.

(** C7.  After any session the browser can produce from the first render,
    a press of Play with text present submits exactly one utterance, whose
    rate and pitch are the values the rate and pitch sliders were last set to
    (the defaults 1 and 1 if a slider was never moved); these lie in
    [0.5, 2.0], so clamping them to that interval changes nothing. *)
Theorem play_uses_last_slider_values (evs : list (Env * Event)) (env : Env) :
  feasible evs initialApp [] ->
  text (state (app (run evs initialApp))) <> EmptyString ->
  exists u,
    spokenIn (effects (handleSpeak env (app (run evs initialApp)))) = [u] /\
    Utterance.rate u = clamp sliderMin sliderMax (lastRate evs 1) /\
    Utterance.pitch u = clamp sliderMin sliderMax (lastPitch evs 1) /\
    Utterance.rate u = lastRate evs 1 /\
    Utterance.pitch u = lastPitch evs 1 /\
    Utterance.rate u = rate (state (app (run evs initialApp))) /\
    Utterance.pitch u = pitch (state (app (run evs initialApp))).
Proof.
  intros Hfeas Htext.
  destruct (run_sliders evs initialApp [] (Forall_nil _) Hfeas) as [Hr Hp].
  destruct (last_slider_offered evs initialApp [] 1 1 Hfeas eq_refl eq_refl)
    as [Hor Hop].
  cbn in Hr, Hp.
  exists (utteranceOf (state (app (run evs initialApp)))).
  apply truthy_true_iff in Htext.
  rewrite handleSpeak_unfold. cbn [effects]. rewrite Htext.
  rewrite (clamp_offered _ Hor), (clamp_offered _ Hop).
  cbn [utteranceOf Utterance.rate Utterance.pitch].
  repeat split; try assumption.
  destruct (speaking env); reflexivity.
Qed.

Lemma play_uses_last_slider_values_witness :
  exists u,
    spokenIn (effects (handleSpeak envSpeaking (app (run sessionSliders initialApp)))) = [u] /\
    Utterance.rate u = (17 # 10) /\
    Utterance.pitch u = (1 # 2).
Proof.
  assert (Hfeas : feasible sessionSliders initialApp []).
  { cbn. repeat split. }
  assert (Htext : text (state (app (run sessionSliders initialApp))) <> EmptyString).
  { cbn. discriminate. }
  destruct (play_uses_last_slider_values sessionSliders envSpeaking Hfeas Htext)
    as (u & Hu & _ & _ & Hr & Hp & _).
  exists u. split; [exact Hu|]. split; [exact Hr | exact Hp].
Defined.

(** [handleSpeak] itself does not clamp: a rate outside the slider's interval,
    were the cell to hold one, is handed on as it is. *)
Lemma handleSpeak_hands_rate_on (env : Env) (ap : App) (u : Utterance.t) :
  In (SynthSpeak u) (effects (handleSpeak env ap)) ->
  Utterance.rate u = rate (state ap) /\ Utterance.pitch u = pitch (state ap).
Proof.
  intro Hin. apply handleSpeak_submits in Hin. destruct Hin as [-> _].
  split; reflexivity.
Qed.

(** ** Scenarios *)

(** The catalog is empty on mount, then the platform announces three voices:
    the catalog holds exactly those three and the first is selected. *)
Example scenario_voices_arrive_late :
  let afterMount := app (run [(envNoVoices, Mount)] initialApp) in
  let afterChange := app (run [(envNoVoices, Mount); (envIdle, VoicesChanged)] initialApp) in
  voices (state afterMount) = [] /\
  selectedVoice (state afterMount) = EmptyString /\
  voices (state afterChange) = [voiceA; voiceB; voiceC] /\
  selectedVoice (state afterChange) = voiceURI voiceA.
Proof. vm_compute. repeat split. Qed.

(** Text [Hello world], default rate and pitch: Play submits a request with
    those fields; the start callback sets the flag, the end callback clears
    it. *)
Example scenario_hello_world :
  let typed := app (run [(envIdle, Mount); (envIdle, TextInput "Hello world")] initialApp) in
  let played := dispatch (ButtonClick PlayButton false) envIdle typed in
  let u := utteranceOf (state typed) in
  effects played = [SynthSpeak u] /\
  Utterance.text u = "Hello world" /\
  Utterance.voice u = Some voiceA /\
  Utterance.rate u = 1 /\
  Utterance.pitch u = 1 /\
  isPlaying (state (app played)) = false /\
  isPlaying (state (app (dispatch (Started u) envSpeaking (app played)))) = true /\
  isPlaying (state (app (run [(envSpeaking, Started u); (envIdle, Ended u)] (app played)))) = false.
Proof. vm_compute. repeat split. Qed.

(** ** Further properties of the handlers *)

Lemma spokenIn_app (es1 es2 : list Effect) :
  spokenIn (es1 ++ es2) = spokenIn es1 ++ spokenIn es2.
Proof.
  induction es1 as [| e es1 IH]; [reflexivity|].
  destruct e; cbn; rewrite IH; reflexivity.
Qed.

Lemma dispatch_ref (ev : Event) (env : Env) (ap : App) :
  utteranceRef (app (dispatch ev env ap)) =
  lastOf (spokenIn (effects (dispatch ev env ap))) (utteranceRef ap).
Proof.
  destruct ev as [| | v | v | v | v | | b k | u | u | u]; cbn [dispatch];
    try reflexivity.
  - unfold mountEffect, bind, ask, when. rewrite loadVoices_unfold. cbn.
    destruct (onvoiceschanged_defined env); reflexivity.
  - rewrite loadVoices_unfold. reflexivity.
  - rewrite click_unfold.
    destruct (disabled k (state ap) b); [reflexivity|].
    destruct b; cbn [onClick]; try reflexivity.
    + rewrite handleSpeak_unfold. cbn.
      destruct (speaking env), (truthy (text (state ap))); reflexivity.
    + rewrite handlePause_unfold.
      destruct (speaking env); [destruct (isPlaying (state ap))|]; reflexivity.
Qed.

(** X1.  Over every session, [utteranceRef.current] is the utterance most
    recently handed to the platform by [speak], and keeps its earlier value
    while none has been: no other handler writes the ref. *)
Theorem session_ref_is_last_spoken (evs : list (Env * Event)) :
  forall ap : App,
    utteranceRef (app (run evs ap)) =
    lastOf (spokenIn (effects (run evs ap))) (utteranceRef ap).
Proof.
  induction evs as [| [env ev] rest IH]; intro ap.
  - reflexivity.
  - cbn [run app effects]. rewrite IH, dispatch_ref, spokenIn_app.
    unfold lastOf. rewrite fold_left_app. reflexivity.
Qed.

(** X2.  When the platform does not report speaking, Play with text present
    makes one request only, the [speak]: nothing is cancelled, and the new
    utterance is queued behind whatever the platform still holds. *)
Theorem play_on_idle_platform_queues (env : Env) (ap : App) (q : list Utterance.t) :
  speaking env = false ->
  text (state ap) <> EmptyString ->
  effects (handleSpeak env ap) = [SynthSpeak (utteranceOf (state ap))] /\
  queueAfter (effects (handleSpeak env ap)) q = q ++ [utteranceOf (state ap)] /\
  ~ In SynthCancel (effects (handleSpeak env ap)).
Proof.
  intros Hidle Htext. apply truthy_true_iff in Htext.
  rewrite handleSpeak_unfold. cbn [effects]. rewrite Hidle, Htext. cbn.
  repeat split. intros [H | []]. discriminate H.
Qed.

Lemma play_on_idle_platform_queues_witness :
  queueAfter (effects (handleSpeak envIdle appHello)) [utteranceOf initialState] =
    [utteranceOf initialState; utteranceOf stateHello].
Proof.
  assert (Htext : text (state appHello) <> EmptyString) by discriminate.
  exact (proj1 (proj2 (play_on_idle_platform_queues envIdle appHello
                         [utteranceOf initialState] eq_refl Htext))).
Defined.

(** X3.  No button click, enabled or not, changes the text, the catalog, the
    selected voice, the rate, the pitch or the visibility of the settings
    panel: of the React state a click can change the playback flag only. *)
Theorem click_keeps_settings (b : Button) (k : bool) (env : Env) (ap : App) :
  state (app (click b k env ap)) =
  setIsPlaying (isPlaying (state (app (click b k env ap)))) (state ap).
Proof.
  destruct ap as [[t vs sel r p playing shown] ref].
  rewrite click_unfold. cbn [state].
  destruct (disabled k _ b); [reflexivity|].
  destruct b; cbn [onClick].
  - rewrite handleSpeak_unfold. cbn. destruct (truthy t); reflexivity.
  - rewrite handlePause_unfold. destruct (speaking env); reflexivity.
  - reflexivity.
  - reflexivity.
Qed.



(** X5.  The playback flag goes from clear to set in two ways only: the
    start callback of an utterance, or a click on the enabled Pause/Resume
    toggle while the platform reports speaking (a resume).  In particular a
    click on Play never sets it. *)
Theorem flag_rises_on_start_or_resume (ev : Event) (env : Env) (ap : App) :
  lifecycleFromPlay ev ->
  isPlaying (state ap) = false ->
  isPlaying (state (app (dispatch ev env ap))) = true ->
  (exists u, ev = Started u) \/
  (ev = ButtonClick PauseButton true /\ speaking env = true /\
   effects (dispatch ev env ap) = [SynthResume]).
Proof.
  intros Hlife Hoff Hon.
  destruct ev as [| | v | v | v | v | | b k | u | u | u]; cbn [dispatch] in *.
  - rewrite mountEffect_app, loadVoices_unfold in Hon. cbn in Hon.
    destruct (getVoices env); cbn in Hon; congruence.
  - rewrite loadVoices_unfold in Hon. cbn in Hon.
    destruct (getVoices env); cbn in Hon; congruence.
  - cbn in Hon. congruence.
  - cbn in Hon. congruence.
  - cbn in Hon. congruence.
  - cbn in Hon. congruence.
  - cbn in Hon. congruence.
  - rewrite click_unfold in *.
    destruct b, k; cbn [disabled negb] in *;
      try (destruct (negb (truthy (text (state ap))) || isPlaying (state ap))%bool;
           [cbn in Hon; congruence|]);
      try (destruct (negb (truthy (text (state ap))));
           [cbn in Hon; congruence|]);
      cbn [onClick] in *;
      try (rewrite handleSpeak_unfold in Hon; cbn in Hon;
           destruct (truthy (text (state ap))); cbn in Hon; congruence);
      try (cbn in Hon; congruence).
    right. rewrite handlePause_unfold in *.
    destruct (speaking env); [|cbn in Hon; congruence].
    rewrite Hoff. repeat split.
  - left. exists u. reflexivity.
  - destruct Hlife as [s ->]. cbn in Hon. discriminate Hon.
  - destruct Hlife as [s ->]. cbn in Hon. discriminate Hon.
Qed.

Lemma flag_rises_on_start_or_resume_witness :
  (exists u, ButtonClick PauseButton true = Started u) \/
  (ButtonClick PauseButton true = ButtonClick PauseButton true /\
   speaking envSpeaking = true /\
   effects (dispatch (ButtonClick PauseButton true) envSpeaking appHello) = [SynthResume]).
Proof.
  apply (flag_rises_on_start_or_resume (ButtonClick PauseButton true)
           envSpeaking appHello I eq_refl eq_refl).
Defined.

(** X6.  Clicking the settings button [n] times shows the panel exactly
    when [n] is odd and it was hidden, or [n] is even and it was shown;
    the clicks change nothing else and ask nothing of the platform. *)
Theorem settings_clicks_parity (env : Env) (n : nat) :
  forall ap : App,
    state (app (run (settingsClicks env n) ap)) =
      setShowSettings
        (if Nat.even n then showSettings (state ap) else negb (showSettings (state ap)))
        (state ap) /\
    utteranceRef (app (run (settingsClicks env n) ap)) = utteranceRef ap /\
    effects (run (settingsClicks env n) ap) = [].
Proof.
  unfold settingsClicks.
  induction n as [| n IH]; intros [[t vs sel r p playing shown] ref].
  - repeat split.
  - cbn [repeat run app effects]. cbn [dispatch].
    match goal with
    | |- context [run _ ?a] => destruct (IH a) as (Hs & Hr & He)
    end.
    rewrite Hs, Hr, He. rewrite Nat.even_succ, <- Nat.negb_even.
    cbn. destruct (Nat.even n); cbn; rewrite ?negb_involutive; repeat split.
Qed.

(** X7.  Two clicks on the Pause/Resume toggle while the platform reports
    speaking leave the React state as it was, and ask the platform for a
    pause and a resume, in the order the flag dictates. *)
Theorem pause_twice_restores (env1 env2 : Env) (ap : App) :
  speaking env1 = true ->
  speaking env2 = true ->
  let r1 := handlePause env1 ap in
  let r2 := handlePause env2 (app r1) in
  app r2 = ap /\
  effects r1 ++ effects r2 =
    if isPlaying (state ap) then [SynthPause; SynthResume]
    else [SynthResume; SynthPause].
Proof.
  intros H1 H2. cbv zeta. rewrite !handlePause_unfold, H1. cbn [app].
  rewrite H2. destruct ap as [[t vs sel r p playing shown] ref]. cbn.
  rewrite negb_involutive. destruct playing; split; reflexivity.
Qed.

Lemma pause_twice_restores_witness :
  app (handlePause envSpeaking (app (handlePause envSpeaking appHello))) = appHello /\
  effects (handlePause envSpeaking appHello) ++
  effects (handlePause envSpeaking (app (handlePause envSpeaking appHello))) =
    [SynthResume; SynthPause].
Proof.
  exact (pause_twice_restores envSpeaking envSpeaking appHello eq_refl eq_refl).
Defined.



Lemma lookupURL_revoked (url : string) (store : list (string * Blob)) :
  lookupURL url (revokeURL url store) = None.
Proof.
  induction store as [| [u b] rest IH]; [reflexivity|].
  cbn. destruct (String.eqb u url) eqn:E; cbn; [exact IH|].
  rewrite E. exact IH.
Qed.

Lemma lookupURL_revoke_other (url other : string) (store : list (string * Blob)) :
  other <> url ->
  lookupURL other (revokeURL url store) = lookupURL other store.
Proof.
  intro Hne. induction store as [| [u b] rest IH]; [reflexivity|].
  cbn. destruct (String.eqb u url) eqn:E; cbn.
  - apply String.eqb_eq in E. subst u.
    destruct (String.eqb url other) eqn:E2; [|exact IH].
    apply String.eqb_eq in E2. exfalso. apply Hne. symmetry. exact E2.
  - destruct (String.eqb u other); [reflexivity | exact IH].
Qed.

(** X9.  [handleDownload] cleans up after itself: whatever object URLs were
    alive before, it saves exactly one file holding the text (an empty file
    when the text is empty), the URL it created is no longer alive afterwards,
    and every other URL is as it was. *)
Theorem download_revokes_its_url (env : Env) (ap : App) (store : list (string * Blob)) :
  let es := effects (handleDownload env ap) in
  let url := createObjectURL env (mkBlob [text (state ap)] "text/plain") in
  savedFiles es store = [mkFile "speech-text.txt" "text/plain" (text (state ap))] /\
  lookupURL url (storeAfter es store) = None /\
  (forall other, other <> url ->
     lookupURL other (storeAfter es store) = lookupURL other store).
Proof.
  cbv zeta. rewrite handleDownload_unfold. cbn - [revokeURL].
  rewrite String.eqb_refl. cbn - [revokeURL].
  split; [reflexivity|].
  assert (Hstore : forall b, revokeURL (createObjectURL env b) ((createObjectURL env b, b) :: store)
                             = revokeURL (createObjectURL env b) store).
  { intro b. cbn. rewrite String.eqb_refl. reflexivity. }
  rewrite Hstore. split.
  - apply lookupURL_revoked.
  - intros other Hne. apply lookupURL_revoke_other. exact Hne.
Qed.

Lemma NoDup_map_same {A B : Type} (f : A -> B) (l : list A) (x y : A) :
  NoDup (map f l) -> In x l -> In y l -> f x = f y -> x = y.
Proof.
  induction l as [| a l IH]; cbn; intros Hnd Hx Hy Hf; [contradiction|].
  inversion Hnd as [| ? ? Hnotin Hnd']; subst.
  destruct Hx as [-> | Hx], Hy as [-> | Hy].
  - reflexivity.
  - exfalso. apply Hnotin. rewrite Hf. apply in_map. exact Hy.
  - exfalso. apply Hnotin. rewrite <- Hf. apply in_map. exact Hx.
  - apply IH; assumption.
Qed.

Lemma handleSpeak_spoken (env : Env) (ap : App) :
  spokenIn (effects (handleSpeak env ap)) =
  if truthy (text (state ap)) then [utteranceOf (state ap)] else [].
Proof.
  rewrite handleSpeak_unfold. cbn.
  destruct (speaking env), (truthy (text (state ap))); reflexivity.
Qed.

(** X10.  Every option the voice dropdown shows can be spoken with: after
    choosing it, Play with text present submits one utterance, whose voice is
    a catalog entry with the option's value as [voiceURI]; when the catalog
    has no two entries with the same [voiceURI], it is the entry whose name
    and language the option shows. *)
Theorem dropdown_choice_resolves (o : VoiceOption) (env env' : Env) (ap : App) :
  In o (voiceOptions (state ap)) ->
  text (state ap) <> EmptyString ->
  let chosen := app (dispatch (VoiceChosen (optionValue o)) env ap) in
  exists v,
    In v (voices (state ap)) /\
    voiceURI v = optionValue o /\
    map Utterance.voice (spokenIn (effects (handleSpeak env' chosen))) = [Some v] /\
    (NoDup (map voiceURI (voices (state ap))) ->
     optionLabel o = (name v ++ " (" ++ lang v ++ ")")%string).
Proof.
  intros Ho Htext. cbv zeta. apply truthy_true_iff in Htext.
  unfold voiceOptions in Ho. apply in_map_iff in Ho.
  destruct Ho as (w & <- & Hw). cbn [optionValue optionLabel].
  rewrite handleSpeak_spoken. cbn. rewrite Htext. cbn.
  destruct (find (fun v => String.eqb (voiceURI v) (voiceURI w)) (voices (state ap)))
    as [v|] eqn:Hfind.
  - apply find_some in Hfind. destruct Hfind as [Hv Heq].
    apply String.eqb_eq in Heq.
    exists v. repeat split; try assumption.
    intro Hnd. rewrite (NoDup_map_same voiceURI _ v w Hnd Hv Hw Heq). reflexivity.
  - exfalso. pose proof (find_none _ _ Hfind w Hw) as Hnone.
    cbn in Hnone. rewrite String.eqb_refl in Hnone. discriminate Hnone.
Qed.

Lemma dropdown_choice_resolves_witness :
  exists v,
    In v (voices (state appHello)) /\
    voiceURI v = "urn:voice:chen" /\
    map Utterance.voice
      (spokenIn (effects (handleSpeak envSpeaking
         (app (dispatch (VoiceChosen "urn:voice:chen") envIdle appHello))))) = [Some v].
Proof.
  assert (Ho : In (mkOption "urn:voice:chen" "Chen (zh-CN)") (voiceOptions (state appHello))).
  { cbn. right. right. left. reflexivity. }
  assert (Htext : text (state appHello) <> EmptyString) by discriminate.
  destruct (dropdown_choice_resolves _ envIdle envSpeaking appHello Ho Htext)
    as (v & Hv & Huri & Hvoice & _).
  exists v. split; [exact Hv|]. split; [exact Huri | exact Hvoice].
Defined.

(** X11.  Right after the catalog is loaded or reloaded, Play with text
    present speaks with the first voice the platform returned; when the
    platform returned none, the catalog is empty and the utterance carries no
    voice, whatever voice id is still selected. *)
Theorem play_after_catalog_load (env env' : Env) (ap : App) :
  text (state ap) <> EmptyString ->
  let loaded := app (dispatch VoicesChanged env ap) in
  map Utterance.voice (spokenIn (effects (handleSpeak env' loaded))) =
    [hd_error (getVoices env)] /\
  (getVoices env = [] ->
     voices (state loaded) = [] /\
     selectedVoice (state loaded) = selectedVoice (state ap)).
Proof.
  intro Htext. apply truthy_true_iff in Htext. cbv zeta. cbn [dispatch].
  rewrite handleSpeak_spoken, loadVoices_unfold. cbn.
  destruct (getVoices env) as [| v rest]; cbn; rewrite Htext; cbn.
  - split; [reflexivity|]. intros _. split; reflexivity.
  - rewrite String.eqb_refl. split; [reflexivity|]. intro H. discriminate H.
Qed.

Lemma play_after_catalog_load_witness :
  map Utterance.voice
    (spokenIn (effects (handleSpeak envIdle (app (dispatch VoicesChanged envNoVoices appHello))))) =
    [None] /\
  selectedVoice (state (app (dispatch VoicesChanged envNoVoices appHello))) =
    "urn:voice:bruno".
Proof.
  assert (Htext : text (state appHello) <> EmptyString) by discriminate.
  destruct (play_after_catalog_load envNoVoices envIdle appHello Htext) as [Hv He].
  split; [exact Hv | exact (proj2 (He eq_refl))].
Defined.

Lemma click_keeps_text (b : Button) (k : bool) (env : Env) (ap : App) :
  text (state (app (click b k env ap))) = text (state ap).
Proof.
  rewrite click_unfold. destruct (disabled k (state ap) b); [reflexivity|].
  destruct b; cbn [onClick].
  - rewrite handleSpeak_unfold. cbn. destruct (truthy (text (state ap))); reflexivity.
  - rewrite handlePause_unfold. destruct (speaking env); reflexivity.
  - reflexivity.
  - reflexivity.
Qed.

Lemma dispatch_text (ev : Event) (env : Env) (ap : App) :
  lifecycleFromPlay ev ->
  text (state (app (dispatch ev env ap))) =
    match ev with TextInput v => v | _ => text (state ap) end.
Proof.
  intro Hlife. destruct ev as [| | v | v | v | v | | b k | u | u | u];
    cbn [dispatch]; try reflexivity.
  - rewrite mountEffect_app, loadVoices_unfold. cbn.
    destruct (getVoices env); reflexivity.
  - rewrite loadVoices_unfold. cbn. destruct (getVoices env); reflexivity.
  - rewrite click_keeps_text. reflexivity.
  - destruct Hlife as [s ->]. reflexivity.
  - destruct Hlife as [s ->]. reflexivity.
  - destruct Hlife as [s ->]. reflexivity.
Qed.

Lemma run_text (evs : list (Env * Event)) :
  forall (ap : App) (spoken : list Utterance.t),
    Forall fromPlay spoken ->
    feasible evs ap spoken ->
    text (state (app (run evs ap))) = lastText evs (text (state ap)).
Proof.
  induction evs as [| [env ev] rest IH]; intros ap spoken Hall Hfeas.
  - reflexivity.
  - destruct Hfeas as [Hev Hrest]. cbv zeta in Hrest.
    pose proof (feasible_lifecycle ev spoken Hall Hev) as Hlife.
    assert (Hall' : Forall fromPlay (spoken ++ spokenIn (effects (dispatch ev env ap)))).
    { apply Forall_app. split; [exact Hall|].
      apply Forall_forall. intros u Hu. exact (dispatch_spoken ev env ap u Hu). }
    cbn [run app]. rewrite (IH _ _ Hall' Hrest), (dispatch_text ev env ap Hlife).
    destruct ev; reflexivity.
Qed.

(** X12.  After any session the browser can produce from the first render,
    Play speaks exactly the text that was typed last: it submits one
    utterance with that text, and submits nothing when that text is empty or
    nothing was typed. *)
Theorem play_speaks_last_typed_text (evs : list (Env * Event)) (env : Env) :
  feasible evs initialApp [] ->
  map Utterance.text (spokenIn (effects (handleSpeak env (app (run evs initialApp))))) =
    if truthy (lastText evs EmptyString) then [lastText evs EmptyString] else [].
Proof.
  intro Hfeas.
  pose proof (run_text evs initialApp [] (Forall_nil _) Hfeas) as Htext.
  cbn in Htext. rewrite handleSpeak_spoken, Htext.
  destruct (truthy (lastText evs EmptyString)); cbn; [rewrite Htext|]; reflexivity.
Qed.

Lemma play_speaks_last_typed_text_witness :
  map Utterance.text
    (spokenIn (effects (handleSpeak envIdle (app (run sessionSliders initialApp))))) =
    ["Hello world"].
Proof.
  assert (Hfeas : feasible sessionSliders initialApp []).
  { cbn. repeat split. }
  exact (play_speaks_last_typed_text sessionSliders envIdle Hfeas).
Defined.


(** X14.  While the platform reports speaking, the label of the
    Pause/Resume toggle names the request a click on it makes: it reads
    Pause exactly when the click asks for a pause, and Resume exactly when
    the click asks for a resume. *)
Theorem toggle_label_names_request (env : Env) (ap : App) :
  speaking env = true ->
  (pauseLabel (state ap) = "Pause" <-> effects (handlePause env ap) = [SynthPause]) /\
  (pauseLabel (state ap) = "Resume" <-> effects (handlePause env ap) = [SynthResume]).
Proof.
  intro Hbusy. rewrite handlePause_unfold, Hbusy. unfold pauseLabel. cbn.
  destruct (isPlaying (state ap)); split; split; intro H;
    try reflexivity; discriminate H.
Qed.

Lemma toggle_label_names_request_witness :
  pauseLabel (state appHello) = "Resume" /\
  effects (handlePause envSpeaking appHello) = [SynthResume].
Proof.
  pose proof (toggle_label_names_request envSpeaking appHello eq_refl) as [_ Hres].
  split; [reflexivity | apply Hres; reflexivity].
Defined.
